(** * Shallow embedding of the AdyenCheckout orchestration layer

    Sources:
    - [src/src/AdyenCheckoutContext.tsx]: [find], [mapCreatedComponentType],
      and the [AdyenCheckout] component ([submitPayment],
      [removeEventListeners], [startEventListeners], [start],
      [createSession], the provider value and the effects),
      [UNSUPPORTED_PAYMENT_METHODS] and [NATIVE_COMPONENTS];
    - [src/unnamed/part_000] (InstantFragment.kt): [onViewState], and in
      [Module InstantFragment] [onCreateView], [onNewIntent],
      [setupInstantComponent], [onEvent], [onPaymentResult], [onAction],
      [onDestroyView] and the companion's [show], [handle] and [hide].

    JavaScript values are modelled as [jsval]; objects are association lists
    in the creation order of their keys, which object spreads keep and
    [JSON.stringify] follows after the array-index keys. *)


From Stdlib Require Import String Ascii List ZArith Bool Lia.
Import ListNotations.
Open Scope string_scope.
Set Warnings "-register-all".

(* ------------------------------------------------------------------------- *)
(** ** JavaScript values *)

(** A JavaScript number.  A finite non-zero number [x] is given by its sign
    and by the integers [s] and [n] of step 5 of Number::toString: [s] has
    [k] digits, [s * 10^(n-k)] is the shortest decimal that rounds to [x].
    Trailing zeros of [s] do not change that decimal; they are dropped
    before formatting, which makes [k] the least one. *)
Inductive jsnum : Type :=
| NumNaN
| NumInf (neg : bool)
| NumZero
| NumFin (neg : bool) (s : positive) (n : Z).

Inductive jsval : Type :=
| JUndef
| JNull
| JBool (b : bool)
| JNum (x : jsnum)
| JStr (s : string)
| JArr (l : list jsval)
| JObj (o : list (string * jsval)).

Definition jsobj := list (string * jsval).

(** Property read [o.k]: the first binding of [k], [undefined] when absent. *)
Fixpoint obj_get (o : jsobj) (k : string) : jsval :=
  match o with
  | [] => JUndef
  | (k', v) :: o' => if String.eqb k' k then v else obj_get o' k
  end.

(** [{...o, k: v}]: an own property [k] keeps its position and takes the new
    value; otherwise [k] is appended after the copied properties. *)
Fixpoint obj_replace (o : jsobj) (k : string) (v : jsval) : option jsobj :=
  match o with
  | [] => None
  | (k', v') :: o' =>
      if String.eqb k' k then Some ((k', v) :: o')
      else match obj_replace o' k v with
           | Some o'' => Some ((k', v') :: o'')
           | None => None
           end
  end.

Definition obj_spread_set (o : jsobj) (k : string) (v : jsval) : jsobj :=
  match obj_replace o k v with
  | Some o' => o'
  | None => (o ++ [(k, v)])%list
  end.

(** [a ?? b] *)
Definition nullish (v : jsval) : bool :=
  match v with JUndef | JNull => true | _ => false end.

Definition nullish_coalesce (a b : jsval) : jsval :=
  if nullish a then b else a.

(** [v === JStr s] *)
Definition strict_eq_str (v : jsval) (s : string) : bool :=
  match v with JStr s' => String.eqb s' s | _ => false end.

(** *** [JSON.stringify]

    [JSON.stringify] on the values of [jsval]: plain data whose objects list
    their enumerable own string-keyed data properties and carry no [toJSON]
    method, and whose strings hold UTF-16 code units below 256 (so no
    surrogate).  It follows ECMA-262's SerializeJSONProperty,
    QuoteJSONString, SerializeJSONObject and SerializeJSONArray, and
    Number::toString for numbers. *)

Definition quote_char : ascii := "034"%char.
Definition backslash_char : ascii := "092"%char.

(** Lower-case hexadecimal digit of [n < 16]. *)
Definition hex_digit (n : nat) : ascii :=
  if Nat.ltb n 10 then ascii_of_nat (48 + n) else ascii_of_nat (87 + n).

(** QuoteJSONString on one code unit: the short escapes of its table,
    [\u00xx] for the other code units below 0x20, the unit itself otherwise. *)
Definition json_escape_char (c : ascii) : string :=
  let n := nat_of_ascii c in
  if Nat.eqb n 8 then "\b"
  else if Nat.eqb n 9 then "\t"
  else if Nat.eqb n 10 then "\n"
  else if Nat.eqb n 12 then "\f"
  else if Nat.eqb n 13 then "\r"
  else if Nat.eqb n 34 then String backslash_char (String quote_char EmptyString)
  else if Nat.eqb n 92 then String backslash_char (String backslash_char EmptyString)
  else if Nat.ltb n 32
  then "\u00" ++ String (hex_digit (n / 16)) (String (hex_digit (n mod 16)) EmptyString)
  else String c EmptyString.

Fixpoint json_escape (s : string) : string :=
  match s with
  | EmptyString => EmptyString
  | String c s' => json_escape_char c ++ json_escape s'
  end.

Definition json_quote (s : string) : string :=
  String quote_char (json_escape s ++ String quote_char EmptyString).

Fixpoint nat_digits (fuel : nat) (n : N) (acc : string) : string :=
  match fuel with
  | O => acc
  | S f =>
      let acc' := String (ascii_of_N (48 + N.modulo n 10)) acc in
      if N.eqb (N.div n 10) 0 then acc' else nat_digits f (N.div n 10) acc'
  end.

(** Decimal form of an integer. *)
Definition z_to_string (z : Z) : string :=
  let digits := nat_digits (S (Pos.size_nat (Z.to_pos (Z.abs z + 1))))
                          (Z.to_N (Z.abs z)) EmptyString in
  if Z.ltb z 0 then "-" ++ digits else digits.

Fixpoint strip_zeros (fuel : nat) (p : positive) : positive :=
  match fuel with
  | O => p
  | S f =>
      if N.eqb (N.modulo (Npos p) 10) 0
      then match N.div (Npos p) 10 with
           | Npos q => strip_zeros f q
           | N0 => p
           end
      else p
  end.

Fixpoint zeros (m : nat) : string :=
  match m with O => EmptyString | S m' => String "0"%char (zeros m') end.

(** Steps 6 to 10 of Number::toString for a positive finite number. *)
Definition finite_to_string (s0 : positive) (n : Z) : string :=
  let s := strip_zeros (Pos.size_nat s0) s0 in
  let d := nat_digits (S (Pos.size_nat s)) (Npos s) EmptyString in
  let k := Z.of_nat (String.length d) in
  if ((k <=? n) && (n <=? 21))%Z then d ++ zeros (Z.to_nat (n - k)%Z)
  else if ((0 <? n) && (n <=? 21))%Z
  then substring 0 (Z.to_nat n) d ++ "." ++ substring (Z.to_nat n) (Z.to_nat (k - n)%Z) d
  else if ((-6 <? n) && (n <=? 0))%Z then "0." ++ zeros (Z.to_nat (- n)%Z) ++ d
  else
    let e := (if (n - 1 <? 0)%Z then "-" else "+") ++ z_to_string (Z.abs (n - 1)) in
    if (k =? 1)%Z then d ++ "e" ++ e
    else substring 0 1 d ++ "." ++ substring 1 (Z.to_nat (k - 1)%Z) d ++ "e" ++ e.

(** Number::toString with radix 10. *)
Definition number_to_string (x : jsnum) : string :=
  match x with
  | NumNaN => "NaN"
  | NumInf false => "Infinity"
  | NumInf true => "-Infinity"
  | NumZero => "0"
  | NumFin neg s n => (if neg then "-" else "") ++ finite_to_string s n
  end.

Fixpoint join (sep : string) (l : list string) : string :=
  match l with
  | [] => EmptyString
  | [x] => x
  | x :: l' => x ++ sep ++ join sep l'
  end.

(** *** Key order of an object *)

Fixpoint parse_digits (s : string) (acc : N) : option N :=
  match s with
  | EmptyString => Some acc
  | String c s' =>
      let d := N_of_ascii c in
      if (48 <=? d)%N && (d <=? 57)%N then parse_digits s' (acc * 10 + (d - 48))%N
      else None
  end.

(** [Some i] when the key [k] is an array index: the canonical decimal
    form of an integer [i] with [0 <= i < 2^32 - 1]. *)
Definition array_index (k : string) : option N :=
  match k with
  | EmptyString => None
  | String c s' =>
      if Ascii.eqb c "0"%char && negb (String.eqb s' EmptyString) then None
      else match parse_digits k 0 with
           | Some i => if (i <? 4294967295)%N then Some i else None
           | None => None
           end
  end.

(** The first entry of each key, in the order of first occurrence: the
    properties that [obj_get] reads. *)
Fixpoint first_entries {A : Type} (seen : list string) (o : list (string * A))
  : list (string * A) :=
  match o with
  | [] => []
  | (k, v) :: o' =>
      if existsb (String.eqb k) seen then first_entries seen o'
      else (k, v) :: first_entries (k :: seen) o'
  end.

Fixpoint insert_index {A : Type} (i : N) (e : string * A) (l : list (N * (string * A)))
  : list (N * (string * A)) :=
  match l with
  | [] => [(i, e)]
  | (j, e') :: l' => if (i <? j)%N then (i, e) :: l else (j, e') :: insert_index i e l'
  end.

Fixpoint index_entries {A : Type} (o : list (string * A)) : list (N * (string * A)) :=
  match o with
  | [] => []
  | (k, v) :: o' =>
      match array_index k with
      | Some i => insert_index i (k, v) (index_entries o')
      | None => index_entries o'
      end
  end.

(** OrdinaryOwnPropertyKeys: array indices in ascending numeric order, then
    the other string keys in creation order. *)
Definition own_entries {A : Type} (o : list (string * A)) : list (string * A) :=
  let o' := first_entries [] o in
  (map snd (index_entries o')
   ++ filter (fun e => match array_index (fst e) with Some _ => false | None => true end) o')%list.

(** [None] stands for the [undefined] that [JSON.stringify] returns on
    [undefined]; a property whose value serializes to [undefined] is left
    out of an object and an array element written as [null]. *)
Fixpoint json_stringify (v : jsval) : option string :=
  match v with
  | JUndef => None
  | JNull => Some "null"
  | JBool true => Some "true"
  | JBool false => Some "false"
  | JNum x =>
      match x with
      | NumNaN | NumInf _ => Some "null"
      | _ => Some (number_to_string x)
      end
  | JStr s => Some (json_quote s)
  | JArr l =>
      Some ("[" ++ join ","
              (map (fun x => match json_stringify x with
                             | Some s => s | None => "null" end) l) ++ "]")
  | JObj o =>
      Some ("{" ++ join ","
              (flat_map (fun e => match snd e with
                                  | Some s => [json_quote (fst e) ++ ":" ++ s]
                                  | None => []
                                  end)
                 (own_entries
                    ((fix fields (o : list (string * jsval)) : list (string * option string) :=
                        match o with
                        | [] => []
                        | (k, x) :: o' => (k, json_stringify x) :: fields o'
                        end) o))) ++ "}")
  end.

(* ------------------------------------------------------------------------- *)
(** ** Payment methods and [find] *)

Record PaymentMethod : Type := mkPaymentMethod {
  pm_type : string;
  pm_other : jsobj
}.

Record PaymentMethodsResponse : Type := mkPaymentMethodsResponse {
  paymentMethods : list PaymentMethod;
  storedPaymentMethods : option (list jsval)
}.

(** [mapCreatedComponentType] *)
Definition mapCreatedComponentType (pmType : string) : string :=
  if String.eqb pmType "card" then "scheme" else pmType.

(** [find]: [paymentMethods.paymentMethods.find(pm => pm.type === ...)] *)
Definition find (pms : PaymentMethodsResponse) (typeName : string)
  : option PaymentMethod :=
  List.find (fun pm => String.eqb (pm_type pm) (mapCreatedComponentType typeName))
            (paymentMethods pms).

(* ------------------------------------------------------------------------- *)
(** ** InstantFragment.onViewState *)

Inductive InstantViewState : Type :=
| Loading
| Error (errorMessage : string)
| ShowComponent.

Record Binding : Type := mkBinding {
  errorView_isVisible : bool;
  errorView_text : string;
  progressIndicator_isVisible : bool;
  componentContainer_isVisible : bool
}.

Definition onViewState (viewState : InstantViewState) (b : Binding) : Binding :=
  match viewState with
  | Error msg =>
      {| errorView_isVisible := true; errorView_text := msg;
         progressIndicator_isVisible := false;
         componentContainer_isVisible := false |}
  | Loading =>
      {| progressIndicator_isVisible := true; errorView_isVisible := false;
         errorView_text := errorView_text b;
         componentContainer_isVisible := false |}
  | ShowComponent =>
      {| progressIndicator_isVisible := false; errorView_isVisible := false;
         errorView_text := errorView_text b;
         componentContainer_isVisible := true |}
  end.

(** The view-state stream collected in [onViewCreated]. *)
Definition collect_view_states (l : list InstantViewState) (b : Binding) : Binding :=
  fold_left (fun b vs => onViewState vs b) l b.

(* ------------------------------------------------------------------------- *)
(** ** The AdyenCheckout host context *)

(** Modelled from the spec: the [Event] constants of [./core/constants]
    (section 6: the fixed native event names). *)
Definition Event_onSubmit : string := "onSubmit".
Definition Event_onError : string := "onError".
Definition Event_onAdditionalDetails : string := "onAdditionalDetails".
Definition Event_onComplete : string := "onComplete".

(** A native payment component: its name and its declared [events]. *)
Record NativeComponent : Type := mkNativeComponent {
  nc_name : string;
  events : list string
}.

(** The [component] argument of the host callbacks. *)
Inductive AdyenComponent : Type :=
| Native (nc : NativeComponent)
| SessionHelper.

Record SessionResponse : Type := mkSessionResponse {
  session_paymentMethods : option PaymentMethodsResponse;
  session_other : jsobj
}.

(** [AdyenCheckoutProps]: [onError] is mandatory, the other callbacks are
    optional and called through [?.]. *)
Record Props : Type := mkProps {
  config : jsobj;
  props_paymentMethods : option PaymentMethodsResponse;
  session : option jsval;
  has_onSubmit : bool;
  has_onAdditionalDetails : bool;
  has_onComplete : bool
}.

(** A live listener of a [NativeEventEmitter]: the closure passed to
    [addListener] captures [configuration], [nativeComponent] and the
    callbacks of the render that created it. *)
Record Listener : Type := mkListener {
  l_id : nat;
  l_component : NativeComponent;
  l_event : string;
  l_config : jsobj;
  l_props : Props
}.

(** The mutable state of one mounted [AdyenCheckout]: the [subscriptions]
    ref, the live listeners of the native emitters, the counter that names
    fresh subscriptions, and the [sessionStorage] state. *)
Record Ctx : Type := mkCtx {
  subscriptions : list nat;
  listeners : list Listener;
  next_id : nat;
  sessionStorage : option SessionResponse
}.

Definition init_ctx : Ctx := mkCtx [] [] 0 None.

(** Observable effects: calls into the native layer and host callbacks. *)
Inductive Effect : Type :=
| AddListener (id : nat) (nc : NativeComponent) (ev : string)
| Remove (id : nat)
| Open (nc : NativeComponent) (pms : PaymentMethodsResponse) (cfg : jsobj)
| Hide (nc : NativeComponent) (animated : bool)
| HostSubmit (data : jsobj) (c : AdyenComponent) (extra : jsval)
| HostError (error : jsobj) (c : AdyenComponent)
| HostAdditionalDetails (data : jsval) (c : AdyenComponent)
| HostComplete (result : jsval) (c : AdyenComponent)
| CreateSessionCall (descriptor : jsval) (cfg : jsobj)
| SetSession (r : SessionResponse).

(** Exceptions thrown out of [start]. *)
Inductive StartError : Type :=
| ConfigurationError (field : string)
| PaymentMethodsError (reason : string).

Inductive Result (A : Type) : Type :=
| Ok (a : A)
| Throw (e : StartError).
Arguments Ok {A} a.
Arguments Throw {A} e.

(** *** State, exception and trace monad *)

Definition M (A : Type) : Type := Ctx -> Result A * Ctx * list Effect.

Definition ret {A} (a : A) : M A := fun s => (Ok a, s, []).

Definition bind {A B} (m : M A) (k : A -> M B) : M B :=
  fun s =>
    match m s with
    | (Ok a, s1, o1) => let '(r, s2, o2) := k a s1 in (r, s2, (o1 ++ o2)%list)
    | (Throw e, s1, o1) => (Throw e, s1, o1)
    end.

Notation "x <- m ;; k" := (bind m (fun x => k))
  (at level 61, m at next level, right associativity).
Notation "m ;; k" := (bind m (fun _ => k)) (at level 61, right associativity).

Definition throw {A} (e : StartError) : M A := fun s => (Throw e, s, []).
Definition get : M Ctx := fun s => (Ok s, s, []).
Definition put (s' : Ctx) : M unit := fun _ => (Ok tt, s', []).
Definition emit (e : Effect) : M unit := fun s => (Ok tt, s, [e]).

Fixpoint forEach {A} (f : A -> M unit) (l : list A) : M unit :=
  match l with
  | [] => ret tt
  | x :: l' => f x ;; forEach f l'
  end.

Definition set_subscriptions (subs : list nat) (s : Ctx) : Ctx :=
  mkCtx subs (listeners s) (next_id s) (sessionStorage s).
Definition set_listeners (ls : list Listener) (s : Ctx) : Ctx :=
  mkCtx (subscriptions s) ls (next_id s) (sessionStorage s).
Definition set_sessionStorage (r : SessionResponse) (s : Ctx) : Ctx :=
  mkCtx (subscriptions s) (listeners s) (next_id s) (Some r).

(** *** The native emitter *)

(** [eventEmitter.addListener(ev, handler)] *)
Definition addListener (nc : NativeComponent) (ev : string) (configuration : jsobj)
  (p : Props) : M nat :=
  fun s =>
    let id := next_id s in
    (Ok id,
     mkCtx (subscriptions s)
           (listeners s ++ [mkListener id nc ev configuration p])%list
           (S id) (sessionStorage s),
     [AddListener id nc ev]).

(** [s.remove()]: the listener leaves the emitter; removing a listener that
    is already gone leaves the emitter unchanged. *)
Definition remove (id : nat) : M unit :=
  fun s =>
    (Ok tt,
     set_listeners (filter (fun l => negb (Nat.eqb (l_id l) id)) (listeners s)) s,
     [Remove id]).

(** *** Handlers installed by [startEventListeners] *)

(** [submitPayment] *)
Definition submitPayment (p : Props) (configuration : jsobj) (data : jsobj)
  (nativeComponent : NativeComponent) (extra : jsval) : list Effect :=
  let payload :=
    obj_spread_set data "returnUrl"
      (nullish_coalesce (obj_get data "returnUrl") (obj_get configuration "returnUrl")) in
  if has_onSubmit p then [HostSubmit payload (Native nativeComponent) extra] else [].

(** The [Event.onSubmit] handler, on [response = {paymentData, extra}]. *)
Definition onSubmit_handler (p : Props) (configuration : jsobj)
  (nativeComponent : NativeComponent) (paymentData : jsobj) (extra : jsval)
  : list Effect :=
  Hide nativeComponent false
    :: submitPayment p configuration paymentData nativeComponent extra.

(** The [Event.onError] handler. *)
Definition onError_handler (nativeComponent : NativeComponent) (error : jsobj)
  : list Effect :=
  ((if strict_eq_str (obj_get error "errorCode") "canceledByShopper"
    then [Hide nativeComponent false] else [])
   ++ [HostError error (Native nativeComponent)])%list.

Definition onAdditionalDetails_handler (p : Props)
  (nativeComponent : NativeComponent) (data : jsval) : list Effect :=
  if has_onAdditionalDetails p
  then [HostAdditionalDetails data (Native nativeComponent)] else [].

Definition onComplete_handler (p : Props)
  (nativeComponent : NativeComponent) (data : jsval) : list Effect :=
  if has_onComplete p then [HostComplete data (Native nativeComponent)] else [].

(** Events emitted by a native component, with the payload shapes of
    section 6 of the spec. *)
Inductive NativeEvent : Type :=
| EvSubmit (paymentData : jsobj) (extra : jsval)
| EvError (error : jsobj)
| EvAdditionalDetails (data : jsval)
| EvComplete (result : jsval).

Definition event_name (ev : NativeEvent) : string :=
  match ev with
  | EvSubmit _ _ => Event_onSubmit
  | EvError _ => Event_onError
  | EvAdditionalDetails _ => Event_onAdditionalDetails
  | EvComplete _ => Event_onComplete
  end.

Definition run_listener (l : Listener) (ev : NativeEvent) : list Effect :=
  match ev with
  | EvSubmit d x => onSubmit_handler (l_props l) (l_config l) (l_component l) d x
  | EvError e => onError_handler (l_component l) e
  | EvAdditionalDetails d => onAdditionalDetails_handler (l_props l) (l_component l) d
  | EvComplete r => onComplete_handler (l_props l) (l_component l) r
  end.

(** The live listeners that receive [ev] when [nc] emits it.  The listeners
    of a [NativeEventEmitter] sit on React Native's global device event
    emitter, keyed by the event name alone: the emitting module does not
    select them. *)
Definition receivers (s : Ctx) (nc : NativeComponent) (ev : string) : list Listener :=
  filter (fun l => String.eqb (l_event l) ev) (listeners s).

Definition deliver (s : Ctx) (nc : NativeComponent) (ev : NativeEvent) : list Effect :=
  flat_map (fun l => run_listener l ev) (receivers s nc (event_name ev)).

(** *** [removeEventListeners] and [startEventListeners] *)

(** [subscriptions.current.forEach((s) => s.remove())]: the ref keeps its
    array. *)
Definition removeEventListeners : M unit :=
  s <- get ;;
  forEach remove (subscriptions s).

Definition set_current (subs : list nat) : M unit :=
  fun s => (Ok tt, set_subscriptions subs s, []).

Definition push_current (id : nat) : M unit :=
  fun s => (Ok tt, set_subscriptions (subscriptions s ++ [id])%list s, []).

Definition includes (l : list string) (x : string) : bool :=
  existsb (String.eqb x) l.

Definition startEventListeners (p : Props) (configuration : jsobj)
  (nativeComponent : NativeComponent) : M unit :=
  a <- addListener nativeComponent Event_onSubmit configuration p ;;
  b <- addListener nativeComponent Event_onError configuration p ;;
  set_current [a; b] ;;
  (if includes (events nativeComponent) Event_onAdditionalDetails
   then c <- addListener nativeComponent Event_onAdditionalDetails configuration p ;;
        push_current c
   else ret tt) ;;
  (if includes (events nativeComponent) Event_onComplete
   then c <- addListener nativeComponent Event_onComplete configuration p ;;
        push_current c
   else ret tt).

(** *** Collaborators of [start] that live outside [src/] *)

(** Modelled from the spec: [checkPaymentMethodsResponse] of [./core/utils]
    (section 4.5, step 2): fails when no catalog is available or when the
    catalog is empty, and otherwise returns it. *)
Definition checkPaymentMethodsResponse (r : option PaymentMethodsResponse)
  : M PaymentMethodsResponse :=
  match r with
  | None => throw (PaymentMethodsError "missing")
  | Some pms =>
      match paymentMethods pms with
      | [] => throw (PaymentMethodsError "empty")
      | _ => ret pms
      end
  end.

(** Modelled from the spec: [checkConfiguration] of [./core/utils]
    (sections 3 and 4.2): the mandatory fields, environment and client key,
    must be present; the error names the missing field. *)
Definition mandatory_fields : list string := ["environment"; "clientKey"].

Fixpoint first_missing (cfg : jsobj) (fields : list string) : option string :=
  match fields with
  | [] => None
  | f :: fs => if nullish (obj_get cfg f) then Some f else first_missing cfg fs
  end.

Definition checkConfiguration (cfg : jsobj) : M unit :=
  match first_missing cfg mandatory_fields with
  | Some f => throw (ConfigurationError f)
  | None => ret tt
  end.

(** [paymentMethods ?? sessionStorage?.paymentMethods] *)
Definition effective_paymentMethods (p : Props) (s : Ctx)
  : option PaymentMethodsResponse :=
  match props_paymentMethods p with
  | Some r => Some r
  | None =>
      match sessionStorage s with
      | Some sr => session_paymentMethods sr
      | None => None
      end
  end.

(** [{paymentMethods: [paymentMethod]}] *)
Definition singlePaymentMethods (pm : PaymentMethod) : PaymentMethodsResponse :=
  mkPaymentMethodsResponse [pm] None.

(** [{...config, dropin: {skipListWhenSinglePaymentMethod: true}}] *)
Definition singlePaymentConfig (cfg : jsobj) : jsobj :=
  obj_spread_set cfg "dropin" (JObj [("skipListWhenSinglePaymentMethod", JBool true)]).

Section Checkout.

(** Modelled from the spec: the native component that [getNativeComponent]
    (of [./getNativeComponent]) selects for a type name (section 4.5). *)
Variable component_for : string -> NativeComponent.

(** Modelled from the spec: [getNativeComponent] (section 4.5, step 3): the
    record is resolved with [find]; its absence is not an error. *)
Definition getNativeComponent (typeName : string) (pms : PaymentMethodsResponse)
  : NativeComponent * option PaymentMethod :=
  (component_for typeName, find pms typeName).

(** [start] *)
Definition start (p : Props) (typeName : string) : M unit :=
  removeEventListeners ;;
  s <- get ;;
  currentPaymentMethods <- checkPaymentMethodsResponse (effective_paymentMethods p s) ;;
  let '(nativeComponent, paymentMethod) :=
    getNativeComponent typeName currentPaymentMethods in
  checkConfiguration (config p) ;;
  startEventListeners p (config p) nativeComponent ;;
  match paymentMethod with
  | Some pm =>
      emit (Open nativeComponent (singlePaymentMethods pm) (singlePaymentConfig (config p)))
  | None => emit (Open nativeComponent currentPaymentMethods (config p))
  end.

End Checkout.

(** [createSession]: one call of [SessionHelper.createSession]; [outcome] is
    how its promise settles. *)
Definition sessionError (e : jsval) : jsobj :=
  [("message", match json_stringify e with Some m => JStr m | None => JUndef end);
   ("errorCode", JStr "sessionError")].

Definition createSession (p : Props) (outcome : SessionResponse + jsval) : M unit :=
  emit (CreateSessionCall (match session p with Some d => d | None => JUndef end)
                          (config p)) ;;
  match outcome with
  | inl sessionResponse =>
      (fun s => (Ok tt, set_sessionStorage sessionResponse s, [SetSession sessionResponse]))
  | inr e => emit (HostError (sessionError e) SessionHelper)
  end.

(** The effect [if (session) createSession()] run on a change of [session]. *)
Definition session_effect (p : Props) (outcome : SessionResponse + jsval) : M unit :=
  match session p with
  | Some _ => createSession p outcome
  | None => ret tt
  end.

(** The cleanup of the mount effect. *)
Definition unmount : M unit := removeEventListeners.

(** Running a computation: its result, final state and effects. *)
Definition run {A} (m : M A) (s : Ctx) : Result A * Ctx * list Effect := m s.

(** *** Helper definitions for the statements *)

(** A concrete component selector, used for the scenarios below. *)
Definition demo_component (typeName : string) : NativeComponent :=
  mkNativeComponent typeName [Event_onSubmit; Event_onError; Event_onAdditionalDetails].

(** The arguments of every native [open] call in a trace. *)
Definition opens (out : list Effect)
  : list (NativeComponent * PaymentMethodsResponse * jsobj) :=
  flat_map (fun e => match e with Open nc pms cfg => [(nc, pms, cfg)] | _ => [] end) out.

Definition is_remove (e : Effect) : bool :=
  match e with Remove _ => true | _ => false end.

(** The listeners [startEventListeners] attaches when the next fresh
    subscription id is [n]. *)
Definition new_listeners (p : Props) (cfg : jsobj) (nc : NativeComponent) (n : nat)
  : list Listener :=
  let ad := includes (events nc) Event_onAdditionalDetails in
  let co := includes (events nc) Event_onComplete in
  [mkListener n nc Event_onSubmit cfg p; mkListener (S n) nc Event_onError cfg p]
  ++ (if ad then [mkListener (S (S n)) nc Event_onAdditionalDetails cfg p] else [])
  ++ (if co then [mkListener (if ad then S (S (S n)) else S (S n))
                    nc Event_onComplete cfg p] else []).

(** Every live listener belongs to the [subscriptions] ref. *)
Definition listeners_tracked (s : Ctx) : Prop :=
  forall l, In l (listeners s) -> In (l_id l) (subscriptions s).

(** Whether [checkPaymentMethodsResponse] accepts the effective catalog. *)
Definition catalog_ok (p : Props) (s : Ctx) : bool :=
  match effective_paymentMethods p s with
  | Some pms => match paymentMethods pms with [] => false | _ => true end
  | None => false
  end.

(** Exactly one of three flags is set. *)
Definition exactly_one (a b c : bool) : bool :=
  (a && negb b && negb c) || (negb a && b && negb c) || (negb a && negb b && c).

(** The widget that is visible matches the view state. *)
Definition view_matches (vs : InstantViewState) (b : Binding) : Prop :=
  match vs with
  | Error m => errorView_isVisible b = true /\ errorView_text b = m
  | Loading => progressIndicator_isVisible b = true
  | ShowComponent => componentContainer_isVisible b = true
  end.


Definition untracked (ids : list nat) (l : Listener) : bool :=
  negb (existsb (Nat.eqb (l_id l)) ids).

(** The state right after the [removeEventListeners()] that opens [start]. *)
Definition after_remove (s : Ctx) : Ctx :=
  set_listeners (filter (untracked (subscriptions s)) (listeners s)) s.

(** The arguments of the native [open] call of a successful [start]. *)
Definition open_args (component_for : string -> NativeComponent) (p : Props)
  (typeName : string) (pms : PaymentMethodsResponse)
  : NativeComponent * PaymentMethodsResponse * jsobj :=
  match find pms typeName with
  | Some pm => (component_for typeName, singlePaymentMethods pm, singlePaymentConfig (config p))
  | None => (component_for typeName, pms, config p)
  end.

(** The subscription set a successful [start] attaches. *)
Definition attached (component_for : string -> NativeComponent) (p : Props)
  (typeName : string) (s : Ctx) : list Listener :=
  new_listeners p (config p) (component_for typeName) (next_id s).

(** Concrete inputs for the scenarios of the spec. *)
Definition demo_config : jsobj :=
  [("environment", JStr "test"); ("clientKey", JStr "test_KEY");
   ("returnUrl", JStr "myapp://payment");
   ("dropin", JObj [("showPreselectedStoredPaymentMethod", JBool false)])].

Definition demo_config_no_environment : jsobj :=
  [("clientKey", JStr "test_KEY"); ("returnUrl", JStr "myapp://payment")].

Definition pm_scheme : PaymentMethod := mkPaymentMethod "scheme" [("name", JStr "Cards")].
Definition pm_ideal : PaymentMethod := mkPaymentMethod "ideal" [("name", JStr "iDEAL")].

Definition catalog_A : PaymentMethodsResponse := mkPaymentMethodsResponse [pm_scheme] None.
Definition catalog_B : PaymentMethodsResponse :=
  mkPaymentMethodsResponse [pm_ideal; pm_scheme] None.

Definition props_with (cfg : jsobj) (pms : option PaymentMethodsResponse) : Props :=
  mkProps cfg pms None true true true.

(* ------------------------------------------------------------------------- *)
(** ** More of [AdyenCheckoutContext.tsx] *)

(** The [value] of [AdyenCheckoutContext.Provider] (its [start] apart). *)
Record ContextValue : Type := mkContextValue {
  value_config : jsobj;
  value_paymentMethods : option PaymentMethodsResponse
}.

Definition provider_value (p : Props) (s : Ctx) : ContextValue :=
  mkContextValue (config p)
    (match props_paymentMethods p with
     | Some r => Some r
     | None => match sessionStorage s with
               | Some sr => session_paymentMethods sr
               | None => None
               end
     end).

(** What the host does with a mounted [AdyenCheckout]: call [start], let a
    session promise settle, deliver a native event, or unmount it. *)
Inductive HostStep : Type :=
| StepStart (p : Props) (typeName : string)
| StepSession (p : Props) (outcome : SessionResponse + jsval)
| StepEvent (nc : NativeComponent) (ev : NativeEvent)
| StepUnmount.

(** One step; an exception thrown by [start] reaches the host, and the
    state changes made before it stay. *)
Definition host_step (component_for : string -> NativeComponent) (st : HostStep) (s : Ctx)
  : Ctx * list Effect :=
  match st with
  | StepStart p t => let '(_, s', out) := start component_for p t s in (s', out)
  | StepSession p outcome => let '(_, s', out) := session_effect p outcome s in (s', out)
  | StepEvent nc ev => (s, deliver s nc ev)
  | StepUnmount => let '(_, s', out) := unmount s in (s', out)
  end.

Fixpoint run_host (component_for : string -> NativeComponent) (steps : list HostStep) (s : Ctx)
  : Ctx * list Effect :=
  match steps with
  | [] => (s, [])
  | st :: rest =>
      let '(s1, o1) := host_step component_for st s in
      let '(s2, o2) := run_host component_for rest s1 in
      (s2, (o1 ++ o2)%list)
  end.

(** The live listeners for the submit event, over all native components. *)
Definition submit_listeners (s : Ctx) : list Listener :=
  filter (fun l => String.eqb (l_event l) Event_onSubmit) (listeners s).

(** [UNSUPPORTED_PAYMENT_METHODS] *)
Definition UNSUPPORTED_PAYMENT_METHODS : list string :=
  ["wechatpayMiniProgram"; "wechatpayQR"; "wechatpayWeb"; "afterpay_default";
   "amazonpay"; "qiwiwallet"; "ratepay"; "ratepay_directdebit"; "bcmc_mobile_QR";
   "doku"; "doku_alfamart"; "doku_permata_lite_atm"; "doku_indomaret";
   "doku_atm_mandiri_va"; "doku_sinarmas_va"; "doku_mandiri_va"; "doku_cimb_va";
   "doku_danamon_va"; "doku_bri_va"; "doku_bni_va"; "doku_bca_va"; "doku_wallet";
   "oxxo"; "multibanco"; "econtext_atm"; "econtext_online"; "econtext_seven_eleven";
   "econtext_stores"; "dragonpay_ebanking"; "dragonpay_otc_banking";
   "dragonpay_otc_non_banking"; "dragonpay_otc_philippines";
   "giftcard"; "mealVoucher_FR_natixis"; "mealVoucher_FR_sodexo";
   "mealVoucher_FR_groupeup";
   "affirm"; "atome";
   "cashapp"; "clicktopay"; "wechatpaySDK"].

(** [NATIVE_COMPONENTS] *)
Definition NATIVE_COMPONENTS : list string :=
  ["card"; "scheme"; "bcmc";
   "billdesk_online"; "billdesk_wallet"; "dotpay"; "entercash"; "eps"; "ideal";
   "molpay_ebanking_fpx_MY"; "molpay_ebanking_TH"; "molpay_ebanking_VN";
   "onlineBanking"; "onlineBanking_CZ"; "onlinebanking_IN"; "onlineBanking_PL";
   "onlineBanking_SK"; "paybybank"; "wallet_IN";
   "blik"; "mbway"; "upi"; "upi_qr"; "upi_collect";
   "ach"; "directdebit_GB"; "sepadirectdebit";
   "boletobancario"; "boletobancario_bancodobrasil"; "boletobancario_bradesco";
   "boletobancario_hsbc"; "boletobancario_itau"; "boletobancario_santander";
   "primeiropay_boleto"].

Fixpoint nodup_b (l : list string) : bool :=
  match l with
  | [] => true
  | x :: l' => negb (includes l' x) && nodup_b l'
  end.

(* ------------------------------------------------------------------------- *)
(** ** [InstantFragment] (src/unnamed/part_000) *)

Module InstantFragment.

Definition TAG : string := "InstantFragment".
Definition PAYMENT_METHOD_TYPE_EXTRA : string := "PAYMENT_METHOD_TYPE_EXTRA".
Definition RETURN_URL_EXTRA : string := "RETURN_URL_EXTRA".
Definition RETURN_URL_PATH : string := "/instant".

(** The fragment's mutable fields: [arguments] (a [Bundle], as string keys
    to values), [_binding] and [instantPaymentComponent] (a component is
    named by a number). *)
Record Fragment : Type := mkFragment {
  arguments : option jsobj;
  fragment_binding : option Binding;
  instantPaymentComponent : option nat
}.

(** Exceptions: [requireNotNull(_binding)] and the cast
    [findFragmentByTag(TAG) as InstantFragment] of a missing fragment. *)
Inductive KtError : Type :=
| BindingIsNull
| NoFragmentUnderTag.

Inductive KEffect : Type :=
| HandleIntent (component : nat) (intent : string)
| HandleAction (component : nat) (action : jsval)
| Attach (component : nat)
| ToastShow (text : string)
| Dismiss
| DismissFragment (fragment : nat)
| ViewModelHandle (fragment : nat) (action : jsval).

Inductive InstantEvent : Type :=
| AdditionalAction (action : jsval)
| PaymentResult (result : string).

(** [Bundle.putString] *)
Definition putString (b : jsobj) (k v : string) : jsobj := obj_spread_set b k (JStr v).

(** [onCreateView]; [applicationReturnUrl] is
    [RedirectComponent.getReturnUrl(...)] and [inflated] the new binding. *)
Definition onCreateView (applicationReturnUrl : string) (inflated : Binding) (f : Fragment)
  : Fragment :=
  let returnUrl := applicationReturnUrl ++ RETURN_URL_PATH in
  mkFragment
    (Some (putString (match arguments f with Some a => a | None => [] end)
                     RETURN_URL_EXTRA returnUrl))
    (Some inflated)
    (instantPaymentComponent f).

(** [onNewIntent] *)
Definition onNewIntent (intent : string) (f : Fragment) : list KEffect :=
  match instantPaymentComponent f with
  | Some c => [HandleIntent c intent]
  | None => []
  end.

(** [setupInstantComponent]: [component] is what [PROVIDER.get] returns.
    The field is assigned before [binding] is read. *)
Definition setupInstantComponent (component : nat) (f : Fragment)
  : (unit + KtError) * Fragment * list KEffect :=
  let f1 := mkFragment (arguments f) (fragment_binding f) (Some component) in
  match fragment_binding f1 with
  | Some _ => (inl tt, f1, [Attach component])
  | None => (inr BindingIsNull, f1, [])
  end.

(** [onAction] *)
Definition onAction (action : jsval) (f : Fragment) : list KEffect :=
  match instantPaymentComponent f with
  | Some c => [HandleAction c action]
  | None => []
  end.

(** [onPaymentResult] *)
Definition onPaymentResult (result : string) : list KEffect :=
  [ToastShow result; Dismiss].

(** [onEvent] *)
Definition onEvent (event : InstantEvent) (f : Fragment) : list KEffect :=
  match event with
  | AdditionalAction a => onAction a f
  | PaymentResult r => onPaymentResult r
  end.

(** [onViewState] through the [binding] getter. *)
Definition onViewState (viewState : InstantViewState) (f : Fragment)
  : (unit + KtError) * Fragment :=
  match fragment_binding f with
  | Some b => (inl tt, mkFragment (arguments f) (Some (onViewState viewState b))
                                  (instantPaymentComponent f))
  | None => (inr BindingIsNull, f)
  end.

(** [onDestroyView] *)
Definition onDestroyView (f : Fragment) : Fragment :=
  mkFragment (arguments f) None None.

(** The fragment [show] creates (before [.show(fragmentManager, TAG)]). *)
Definition show_fragment (paymentMethodType : string) : Fragment :=
  mkFragment (Some [(PAYMENT_METHOD_TYPE_EXTRA, JStr paymentMethodType)]) None None.

(** A fragment manager: the tags of its fragments. *)
Definition FragmentManager := list (string * nat).

Fixpoint findFragmentByTag (fm : FragmentManager) (tag : string) : option nat :=
  match fm with
  | [] => None
  | (t, id) :: fm' => if String.eqb t tag then Some id else findFragmentByTag fm' tag
  end.

(** [handle] *)
Definition handle (fm : FragmentManager) (action : jsval) : list KEffect + KtError :=
  match findFragmentByTag fm TAG with
  | Some id => inl [ViewModelHandle id action]
  | None => inr NoFragmentUnderTag
  end.

(** [hide] *)
Definition hide (fm : FragmentManager) : list KEffect + KtError :=
  match findFragmentByTag fm TAG with
  | Some id => inl [DismissFragment id]
  | None => inr NoFragmentUnderTag
  end.

End InstantFragment.

(* ------------------------------------------------------------------------- *)
(** ** Lemmas *)

Lemma set_listeners_twice (a b : list Listener) (s : Ctx) :
  set_listeners a (set_listeners b s) = set_listeners a s.
Proof. destruct s; reflexivity. Qed.

Lemma filter_filter_andb {A} (f g : A -> bool) (l : list A) :
  filter f (filter g l) = filter (fun x => g x && f x) l.
Proof.
  induction l as [|x l IH]; simpl; [reflexivity|].
  destruct (g x); simpl; [destruct (f x); simpl|]; rewrite IH; reflexivity.
Qed.

Lemma filter_true {A} (l : list A) : filter (fun _ => true) l = l.
Proof. induction l; simpl; congruence. Qed.

Lemma filter_ext_eq {A} (f g : A -> bool) (l : list A) :
  (forall x, f x = g x) -> filter f l = filter g l.
Proof.
  intros H; induction l as [|x l IH]; simpl; [reflexivity|].
  rewrite H, IH; reflexivity.
Qed.

Lemma forEach_remove (ids : list nat) (s : Ctx) :
  forEach remove ids s =
  (Ok tt, set_listeners (filter (untracked ids) (listeners s)) s, map Remove ids).
Proof.
  revert s; induction ids as [|x ids IH]; intros s.
  - cbn. rewrite filter_true. destruct s; reflexivity.
  - cbn [forEach]. unfold bind at 1. cbn [remove].
    rewrite IH. cbn [map app].
    rewrite set_listeners_twice. cbn [listeners set_listeners].
    rewrite filter_filter_andb.
    f_equal. f_equal. f_equal. apply filter_ext_eq. intros l.
    unfold untracked. cbn [existsb].
    rewrite (Nat.eqb_sym (l_id l) x).
    destruct (Nat.eqb x (l_id l)); reflexivity.
Qed.

Lemma removeEventListeners_run (s : Ctx) :
  removeEventListeners s =
  (Ok tt, set_listeners (filter (untracked (subscriptions s)) (listeners s)) s,
   map Remove (subscriptions s)).
Proof.
  unfold removeEventListeners, bind, get. rewrite forEach_remove. reflexivity.
Qed.

Lemma startEventListeners_run (p : Props) (cfg : jsobj) (nc : NativeComponent) (s : Ctx) :
  startEventListeners p cfg nc s =
  (Ok tt,
   mkCtx (map l_id (new_listeners p cfg nc (next_id s)))
         (listeners s ++ new_listeners p cfg nc (next_id s))%list
         (next_id s + length (new_listeners p cfg nc (next_id s)))
         (sessionStorage s),
   map (fun l => AddListener (l_id l) nc (l_event l)) (new_listeners p cfg nc (next_id s))).
Proof.
  destruct s as [subs ls n ss].
  unfold startEventListeners, new_listeners, bind, set_current, push_current, ret,
    set_subscriptions;
    cbn [next_id listeners sessionStorage subscriptions].
  destruct (includes (events nc) Event_onAdditionalDetails);
  destruct (includes (events nc) Event_onComplete);
  cbn; repeat rewrite <- app_assoc; cbn;
  repeat (f_equal; try lia).
Qed.

Lemma effective_paymentMethods_set_listeners (p : Props) (ls : list Listener) (s : Ctx) :
  effective_paymentMethods p (set_listeners ls s) = effective_paymentMethods p s.
Proof. destruct s; reflexivity. Qed.

Section StartRuns.

Variable component_for : string -> NativeComponent.
Variables (p : Props) (typeName : string) (s : Ctx).

Lemma start_run_catalog_fails :
  catalog_ok p s = false ->
  exists reason,
    start component_for p typeName s =
    (Throw (PaymentMethodsError reason), (after_remove s), map Remove (subscriptions s)).
Proof.
  unfold catalog_ok. intros Hc.
  unfold start, bind at 1. rewrite removeEventListeners_run.
  unfold bind at 1, get. unfold bind at 1.
  rewrite effective_paymentMethods_set_listeners.
  destruct (effective_paymentMethods p s) as [pms|]; cbn.
  - destruct (paymentMethods pms); [|discriminate].
    exists "empty"%string. cbn. rewrite app_nil_r. reflexivity.
  - exists "missing"%string. cbn. rewrite app_nil_r. reflexivity.
Qed.

Lemma start_run_config_fails (f : string) :
  catalog_ok p s = true ->
  first_missing (config p) mandatory_fields = Some f ->
  start component_for p typeName s =
  (Throw (ConfigurationError f), (after_remove s), map Remove (subscriptions s)).
Proof.
  unfold catalog_ok. intros Hc Hf.
  unfold start, bind at 1. rewrite removeEventListeners_run.
  unfold bind at 1, get. unfold bind at 1.
  rewrite effective_paymentMethods_set_listeners.
  destruct (effective_paymentMethods p s) as [pms|]; [|discriminate].
  destruct (paymentMethods pms) eqn:Hpm; [discriminate|].
  cbn. rewrite Hpm. cbn.
  unfold checkConfiguration. rewrite Hf. cbn.
  rewrite !app_nil_r. reflexivity.
Qed.

Lemma start_run_ok (pms : PaymentMethodsResponse) :
  effective_paymentMethods p s = Some pms ->
  paymentMethods pms <> [] ->
  first_missing (config p) mandatory_fields = None ->
  start component_for p typeName s =
  (Ok tt,
   mkCtx (map l_id (attached component_for p typeName s)) (listeners (after_remove s) ++ (attached component_for p typeName s))%list
         (next_id s + length (attached component_for p typeName s)) (sessionStorage s),
   (map Remove (subscriptions s)
    ++ map (fun l => AddListener (l_id l) (component_for typeName) (l_event l)) (attached component_for p typeName s)
    ++ [let '(nc, a, c) := open_args component_for p typeName pms in Open nc a c])%list).
Proof.
  intros He Hne Hf.
  unfold start, bind at 1. rewrite removeEventListeners_run.
  unfold bind at 1, get. unfold bind at 1.
  rewrite effective_paymentMethods_set_listeners, He.
  destruct (paymentMethods pms) eqn:Hpm; [congruence|].
  cbn. rewrite Hpm. cbn.
  unfold checkConfiguration. rewrite Hf. cbn.
  unfold bind at 1. rewrite startEventListeners_run.
  unfold attached, after_remove, open_args, getNativeComponent.
  destruct s; cbn.
  destruct (find pms typeName); cbn; rewrite ?app_nil_r; reflexivity.
Qed.

End StartRuns.

Lemma obj_replace_get (o o' : jsobj) (k k' : string) (v : jsval) :
  obj_replace o k v = Some o' ->
  obj_get o' k' = if String.eqb k' k then v else obj_get o k'.
Proof.
  revert o'; induction o as [|[k0 v0] o IH]; intros o' H; cbn in H; [discriminate|].
  destruct (String.eqb_spec k0 k) as [->|Hne].
  - injection H as <-. cbn.
    destruct (String.eqb_spec k k'), (String.eqb_spec k' k); congruence.
  - destruct (obj_replace o k v) as [o''|] eqn:Hr; [|discriminate].
    injection H as <-. cbn. rewrite (IH o'' eq_refl).
    destruct (String.eqb_spec k0 k'), (String.eqb_spec k' k); congruence.
Qed.

Lemma obj_replace_none_get (o : jsobj) (k k' : string) (v : jsval) :
  obj_replace o k v = None ->
  obj_get (o ++ [(k, v)])%list k' = if String.eqb k' k then v else obj_get o k'.
Proof.
  induction o as [|[k0 v0] o IH]; intros H; cbn in H.
  - cbn. destruct (String.eqb_spec k k'), (String.eqb_spec k' k); congruence.
  - destruct (String.eqb_spec k0 k) as [->|Hne]; [discriminate|].
    destruct (obj_replace o k v); [discriminate|].
    cbn. rewrite (IH eq_refl).
    destruct (String.eqb_spec k0 k'), (String.eqb_spec k' k); congruence.
Qed.

Lemma obj_get_spread_set (o : jsobj) (k k' : string) (v : jsval) :
  obj_get (obj_spread_set o k v) k' = if String.eqb k' k then v else obj_get o k'.
Proof.
  unfold obj_spread_set.
  destruct (obj_replace o k v) as [o'|] eqn:Hr.
  - apply obj_replace_get; exact Hr.
  - apply obj_replace_none_get; exact Hr.
Qed.

(* ------------------------------------------------------------------------- *)
(** ** Claims *)

(** C4: [find(catalog, "card")] returns a record of type ["scheme"] whenever
    the catalog has one, and never a record of type ["card"]; for any other
    type name [t], [find] returns a record of the catalog whose type is [t]
    if there is one and absence otherwise; it is total (never throws). *)
Theorem find_card_alias_exact (pms : PaymentMethodsResponse) :
  ((exists pm, In pm (paymentMethods pms) /\ pm_type pm = "scheme") ->
   exists pm, find pms "card" = Some pm /\ pm_type pm = "scheme") /\
  (forall pm, find pms "card" = Some pm -> pm_type pm = "scheme" /\ pm_type pm <> "card") /\
  (forall t, t <> "card" ->
     (forall pm, find pms t = Some pm -> In pm (paymentMethods pms) /\ pm_type pm = t) /\
     (find pms t = None <-> forall pm, In pm (paymentMethods pms) -> pm_type pm <> t)).
Proof.
  unfold find, mapCreatedComponentType. cbn [String.eqb].
  split; [|split].
  - intros [pm [Hin Hty]].
    destruct (List.find _ _) as [pm'|] eqn:Hf.
    + apply find_some in Hf as [_ Hf]. exists pm'. split; [reflexivity|].
      apply String.eqb_eq; exact Hf.
    + apply (find_none _ _ Hf) in Hin. rewrite Hty in Hin. discriminate.
  - intros pm Hf. apply find_some in Hf as [_ Hf].
    apply String.eqb_eq in Hf. rewrite Hf. split; [reflexivity|discriminate].
  - intros t Ht. destruct (String.eqb_spec t "card") as [|_]; [contradiction|].
    split.
    + intros pm Hf. apply find_some in Hf as [Hin Hf].
      split; [exact Hin|apply String.eqb_eq; exact Hf].
    + split.
      * intros Hf pm Hin Hty. apply (find_none _ _ Hf) in Hin.
        rewrite Hty, String.eqb_refl in Hin. discriminate.
      * intros Hno. destruct (List.find _ _) as [pm|] eqn:Hf; [|reflexivity].
        apply find_some in Hf as [Hin Hf]. apply String.eqb_eq in Hf.
        exfalso; exact (Hno pm Hin Hf).
Qed.

(** C9: after [onViewState] processes any [InstantViewState], exactly one of
    the error text, the progress indicator and the component container is
    visible, and it is the one of that state (the error text carrying the
    error message); the same holds after a whole stream of view states for
    its last element. *)
Theorem onViewState_exclusive (vs : InstantViewState) (b : Binding) (before : list InstantViewState) :
  exactly_one (errorView_isVisible (onViewState vs b))
              (progressIndicator_isVisible (onViewState vs b))
              (componentContainer_isVisible (onViewState vs b)) = true /\
  view_matches vs (onViewState vs b) /\
  let b' := collect_view_states (before ++ [vs]) b in
  exactly_one (errorView_isVisible b') (progressIndicator_isVisible b')
              (componentContainer_isVisible b') = true /\
  view_matches vs b'.
Proof.
  unfold collect_view_states. rewrite fold_left_app. cbn [fold_left].
  generalize (fold_left (fun b0 vs0 => onViewState vs0 b0) before b) as b'.
  intros b'.
  destruct vs; cbn; repeat split.
Qed.

(** C10: the configuration of the single-method branch keeps every top-level
    field of [config] except [dropin], whose value becomes exactly
    [{skipListWhenSinglePaymentMethod: true}] (other [dropin] options are
    dropped, not merged). *)
Theorem singlePaymentConfig_fields (cfg : jsobj) (k : string) :
  obj_get (singlePaymentConfig cfg) k =
  if String.eqb k "dropin"
  then JObj [("skipListWhenSinglePaymentMethod", JBool true)]
  else obj_get cfg k.
Proof. unfold singlePaymentConfig. apply obj_get_spread_set. Qed.

(** C6: on an error event, the handler hides the native component without
    animation first when [errorCode] is ["canceledByShopper"], and in every
    case then passes the error and the native component to [onError]. *)
Theorem onError_handler_order (nc : NativeComponent) (error : jsobj) :
  (obj_get error "errorCode" = JStr "canceledByShopper" ->
   onError_handler nc error = [Hide nc false; HostError error (Native nc)]) /\
  (obj_get error "errorCode" <> JStr "canceledByShopper" ->
   onError_handler nc error = [HostError error (Native nc)]).
Proof.
  unfold onError_handler, strict_eq_str. split; intros H.
  - rewrite H. reflexivity.
  - destruct (obj_get error "errorCode") eqn:He; try reflexivity.
    destruct (String.eqb_spec s "canceledByShopper") as [->|]; [contradiction|].
    reflexivity.
Qed.

(** C8: on a submit event, the handler first hides the native component
    without animation, then (when the host supplied [onSubmit]) calls
    [onSubmit] with a payload, the native component and the event's extra
    data; the payload has the payment data's fields, with [returnUrl] taken
    from the payment data unless it is null or undefined there, and from
    the configuration otherwise. *)
Theorem onSubmit_handler_payload (p : Props) (cfg : jsobj) (nc : NativeComponent)
  (paymentData : jsobj) (extra : jsval) :
  exists payload,
    onSubmit_handler p cfg nc paymentData extra =
    Hide nc false :: (if has_onSubmit p then [HostSubmit payload (Native nc) extra] else []) /\
    obj_get payload "returnUrl" =
      (if nullish (obj_get paymentData "returnUrl")
       then obj_get cfg "returnUrl" else obj_get paymentData "returnUrl") /\
    (forall k, k <> "returnUrl" -> obj_get payload k = obj_get paymentData k).
Proof.
  eexists. split; [reflexivity|]. split.
  - rewrite obj_get_spread_set, String.eqb_refl. reflexivity.
  - intros k Hk. rewrite obj_get_spread_set.
    destruct (String.eqb_spec k "returnUrl"); [contradiction|reflexivity].
Qed.

(** C7: when the session promise rejects with [e], [createSession] calls
    the backend once and then [onError] once, with the session helper (not a
    native component) as the component and the error
    [{message: JSON.stringify(e), errorCode: "sessionError"}]; nothing else
    happens (no retry, [sessionStorage] unchanged). *)
Theorem createSession_failure (p : Props) (e : jsval) (s : Ctx) :
  let '(r, s', out) := createSession p (inr e) s in
  r = Ok tt /\ s' = s /\
  out = [CreateSessionCall (match session p with Some d => d | None => JUndef end) (config p);
         HostError (sessionError e) SessionHelper] /\
  obj_get (sessionError e) "errorCode" = JStr "sessionError" /\
  obj_get (sessionError e) "message" =
    match json_stringify e with Some m => JStr m | None => JUndef end.
Proof. repeat split. Qed.

(** *** Lemmas on [start] used by the claims below *)

Lemma first_missing_some (cfg : jsobj) (fields : list string) (f : string) :
  In f fields -> nullish (obj_get cfg f) = true ->
  exists f', first_missing cfg fields = Some f' /\ In f' fields /\
             nullish (obj_get cfg f') = true.
Proof.
  induction fields as [|g fs IH]; intros Hin Hf; [contradiction|].
  cbn. destruct (nullish (obj_get cfg g)) eqn:Hg.
  - exists g. split; [reflexivity|]. split; [left; reflexivity|exact Hg].
  - destruct Hin as [->|Hin]; [rewrite Hf in Hg; discriminate|].
    destruct (IH Hin Hf) as [f' [H1 [H2 H3]]].
    exists f'. split; [exact H1|]. split; [right; exact H2|exact H3].
Qed.

Lemma forallb_is_remove (ids : list nat) : forallb is_remove (map Remove ids) = true.
Proof. induction ids; cbn; auto. Qed.

Lemma opens_app (a b : list Effect) : opens (a ++ b) = (opens a ++ opens b)%list.
Proof. unfold opens. apply flat_map_app. Qed.

Lemma opens_removes (ids : list nat) : opens (map Remove ids) = [].
Proof. induction ids; cbn; auto. Qed.

Lemma opens_adds (nc : NativeComponent) (ls : list Listener) :
  opens (map (fun l => AddListener (l_id l) nc (l_event l)) ls) = [].
Proof. induction ls; cbn; auto. Qed.

(** C1 (amended): with a mandatory configuration field missing
    ([undefined] or [null]), [start] only releases the previous
    subscriptions: its only effects are one [remove()] per subscription of
    the ref, which takes exactly those listeners off the live set, so it
    opens no native component and calls no host callback; and it throws to
    its caller.  The exception is [ConfigurationError] naming a mandatory
    field missing from the configuration when the effective catalog is
    present and non-empty, and the catalog error otherwise. *)
Theorem start_missing_field_throws
  (component_for : string -> NativeComponent) (p : Props) (typeName : string)
  (s : Ctx) (f : string) :
  In f mandatory_fields -> nullish (obj_get (config p) f) = true ->
  let '(r, s', out) := start component_for p typeName s in
  out = map Remove (subscriptions s) /\
  forallb is_remove out = true /\
  listeners s' = filter (untracked (subscriptions s)) (listeners s) /\
  subscriptions s' = subscriptions s /\
  (catalog_ok p s = true ->
   exists f', In f' mandatory_fields /\ nullish (obj_get (config p) f') = true /\
              r = Throw (ConfigurationError f')) /\
  (catalog_ok p s = false -> exists reason, r = Throw (PaymentMethodsError reason)).
Proof.
  intros Hin Hf.
  destruct (first_missing_some (config p) mandatory_fields f Hin Hf) as [f' [Hm [Hin' Hf']]].
  destruct (catalog_ok p s) eqn:Hc.
  - rewrite (start_run_config_fails component_for p typeName s f' Hc Hm).
    split; [reflexivity|]. split; [apply forallb_is_remove|].
    split; [reflexivity|]. split; [reflexivity|]. split; [|discriminate].
    intros _. exists f'. split; [exact Hin'|]. split; [exact Hf'|reflexivity].
  - destruct (start_run_catalog_fails component_for p typeName s Hc) as [reason ->].
    split; [reflexivity|]. split; [apply forallb_is_remove|].
    split; [reflexivity|]. split; [reflexivity|]. split; [discriminate|].
    intros _. exists reason. reflexivity.
Qed.

(** C3: [start] calls native [open] once when its pre-flight checks pass and
    never otherwise; if [find] resolves [typeName] in the effective catalog,
    [open] gets the narrowed catalog [{paymentMethods: [pm]}] and the
    configuration whose [dropin] is [{skipListWhenSinglePaymentMethod:
    true}]; if not, it gets the full effective catalog and [config]. *)
Theorem start_open_mode
  (component_for : string -> NativeComponent) (p : Props) (typeName : string) (s : Ctx) :
  let '(r, s', out) := start component_for p typeName s in
  opens out =
  match effective_paymentMethods p s, first_missing (config p) mandatory_fields with
  | Some pms, None =>
      if catalog_ok p s then
        [match find pms typeName with
         | Some pm =>
             (component_for typeName, mkPaymentMethodsResponse [pm] None,
              singlePaymentConfig (config p))
         | None => (component_for typeName, pms, config p)
         end]
      else []
  | _, _ => []
  end.
Proof.
  destruct (catalog_ok p s) eqn:Hc.
  - destruct (first_missing (config p) mandatory_fields) as [f|] eqn:Hm.
    + rewrite (start_run_config_fails component_for p typeName s f Hc Hm).
      rewrite opens_removes. destruct (effective_paymentMethods p s); reflexivity.
    + unfold catalog_ok in Hc.
      destruct (effective_paymentMethods p s) as [pms|] eqn:He; [|discriminate].
      assert (Hne : paymentMethods pms <> []) by (destruct (paymentMethods pms); congruence).
      rewrite (start_run_ok component_for p typeName s pms He Hne Hm).
      rewrite !opens_app, opens_removes, opens_adds.
      unfold open_args. destruct (paymentMethods pms); [congruence|].
      destruct (find pms typeName); reflexivity.
  - destruct (start_run_catalog_fails component_for p typeName s Hc) as [reason ->].
    rewrite opens_removes.
    destruct (effective_paymentMethods p s), (first_missing (config p) mandatory_fields);
      reflexivity.
Qed.

(** *** Lemmas on two successive [start] calls *)

Lemma filter_untracked_all (ids : list nat) (ls : list Listener) :
  (forall l, In l ls -> In (l_id l) ids) -> filter (untracked ids) ls = [].
Proof.
  induction ls as [|l ls IH]; intros H; cbn; [reflexivity|].
  unfold untracked at 1.
  assert (Hl : existsb (Nat.eqb (l_id l)) ids = true).
  { apply existsb_exists. exists (l_id l). split; [apply H; left; reflexivity|].
    apply Nat.eqb_refl. }
  rewrite Hl. cbn. apply IH. intros l' Hin. apply H. right; exact Hin.
Qed.

Lemma new_listeners_one_submit (p : Props) (cfg : jsobj) (nc : NativeComponent) (n : nat) :
  length (filter (fun l => String.eqb (l_event l) Event_onSubmit)
                 (new_listeners p cfg nc n)) = 1.
Proof.
  unfold new_listeners.
  destruct (includes (events nc) Event_onAdditionalDetails);
  destruct (includes (events nc) Event_onComplete); reflexivity.
Qed.

(** One [start] from a state whose live listeners are all in the
    [subscriptions] ref. *)
Lemma start_tracked
  (component_for : string -> NativeComponent) (p : Props) (typeName : string) (s : Ctx) :
  listeners_tracked s ->
  let '(r, s', out) := start component_for p typeName s in
  (exists rest, out = (map Remove (subscriptions s) ++ rest)%list) /\
  listeners s' = match r with
                 | Ok _ => attached component_for p typeName s
                 | Throw _ => []
                 end /\
  (r = Ok tt -> subscriptions s' = map l_id (listeners s')) /\
  (catalog_ok p s = true -> first_missing (config p) mandatory_fields = None -> r = Ok tt) /\
  listeners_tracked s'.
Proof.
  intros Ht.
  assert (Hrm : listeners (after_remove s) = []).
  { unfold after_remove. destruct s; cbn. apply filter_untracked_all. exact Ht. }
  destruct (catalog_ok p s) eqn:Hc.
  - destruct (first_missing (config p) mandatory_fields) as [f|] eqn:Hm.
    + rewrite (start_run_config_fails component_for p typeName s f Hc Hm).
      split; [exists []; rewrite app_nil_r; reflexivity|].
      split; [exact Hrm|]. split; [discriminate|]. split; [discriminate|].
      intros l. rewrite Hrm. contradiction.
    + unfold catalog_ok in Hc.
      destruct (effective_paymentMethods p s) as [pms|] eqn:He; [|discriminate].
      assert (Hne : paymentMethods pms <> []) by (destruct (paymentMethods pms); congruence).
      rewrite (start_run_ok component_for p typeName s pms He Hne Hm).
      cbn [listeners subscriptions]. rewrite Hrm. cbn [app].
      split; [eexists; reflexivity|]. split; [reflexivity|].
      split; [reflexivity|]. split; [reflexivity|].
      intros l Hin. cbn [listeners subscriptions] in *. apply in_map. exact Hin.
  - destruct (start_run_catalog_fails component_for p typeName s Hc) as [reason ->].
    split; [exists []; rewrite app_nil_r; reflexivity|].
    split; [exact Hrm|]. split; [discriminate|]. split; [discriminate|].
    intros l. rewrite Hrm. contradiction.
Qed.

Lemma init_ctx_tracked : listeners_tracked init_ctx.
Proof. intros l []. Qed.

(** C2 (amended): in two successive [start] calls (from the initial context
    or any context where every live listener is in the [subscriptions] ref),
    the second call first calls [remove()] on every subscription of the ref,
    so none of the first call's listeners stays live; afterwards the live
    listeners are exactly the set the second call attached when it passed
    its pre-flight checks (one submit listener), and none when it threw.
    Either way a later submit event reaches at most one handler. *)
Theorem start_twice_live_set (component_for : string -> NativeComponent)
  (p1 : Props) (t1 : string) (p2 : Props) (t2 : string) (s0 : Ctx) :
  listeners_tracked s0 ->
  let '(_, s1, _) := start component_for p1 t1 s0 in
  let '(r2, s2, out2) := start component_for p2 t2 s1 in
  (exists rest, out2 = (map Remove (subscriptions s1) ++ rest)%list) /\
  listeners s2 = match r2 with
                 | Ok _ => attached component_for p2 t2 s1
                 | Throw _ => []
                 end /\
  (forall nc, length (receivers s2 nc Event_onSubmit) <= 1) /\
  (catalog_ok p2 s1 = true -> first_missing (config p2) mandatory_fields = None ->
   length (receivers s2 (component_for t2) Event_onSubmit) = 1).
Proof.
  intros H0.
  pose proof (start_tracked component_for p1 t1 s0 H0) as H.
  destruct (start component_for p1 t1 s0) as [[r1 s1] o1].
  destruct H as (_ & _ & _ & _ & H1).
  pose proof (start_tracked component_for p2 t2 s1 H1) as H.
  destruct (start component_for p2 t2 s1) as [[r2 s2] o2].
  destruct H as (Hout & Hl & _ & Hok & _).
  split; [exact Hout|]. split; [exact Hl|]. split.
  - intros nc. unfold receivers. rewrite Hl. destruct r2 as [a|e].
    + unfold attached. rewrite new_listeners_one_submit. lia.
    + cbn. lia.
  - intros Hc Hm. rewrite (Hok Hc Hm) in Hl.
    unfold receivers. rewrite Hl. unfold attached.
    apply new_listeners_one_submit.
Qed.

(** C5 (amended): [removeEventListeners] never fails and calls [remove()]
    once on each subscription of the ref; it leaves the ref as it is, so a
    second call calls [remove()] on the same subscriptions again, which
    leaves the context unchanged: two calls end in the state of one.  On an
    empty ref it changes nothing and calls nothing. *)
Theorem removeEventListeners_twice (s : Ctx) :
  let '(r1, s1, o1) := removeEventListeners s in
  let '(r2, s2, o2) := removeEventListeners s1 in
  r1 = Ok tt /\ r2 = Ok tt /\ s2 = s1 /\
  o1 = map Remove (subscriptions s) /\ o2 = o1 /\
  (subscriptions s = [] -> s1 = s /\ o1 = []).
Proof.
  rewrite removeEventListeners_run.
  rewrite removeEventListeners_run.
  destruct s as [subs ls n ss]; cbn.
  rewrite filter_filter_andb.
  rewrite (filter_ext_eq (fun x => untracked subs x && untracked subs x) (untracked subs));
    [|intros x; apply andb_diag].
  split; [reflexivity|]. split; [reflexivity|]. split; [reflexivity|].
  split; [reflexivity|]. split; [reflexivity|].
  intros ->. cbn. unfold untracked. cbn. rewrite filter_true. split; reflexivity.
Qed.

(* ------------------------------------------------------------------------- *)
(** ** Counterexamples *)

(** C1: with the environment missing and no catalog, [start] throws the
    catalog error, not a [ConfigurationError]. *)
Lemma start_missing_environment_without_catalog :
  let '(r, _, out) :=
    start demo_component (props_with demo_config_no_environment None) "card" init_ctx in
  r = Throw (PaymentMethodsError "missing") /\
  (forall f, r <> Throw (ConfigurationError f)) /\
  opens out = [].
Proof.
  vm_compute. split; [reflexivity|]. split; [intros f H; discriminate H|reflexivity].
Qed.

(** C2: a first [start] attaches three listeners; a second [start] with a
    configuration that lacks the environment releases them and throws, and
    no subscription set is live afterwards. *)
Lemma start_twice_second_throws_no_live_set :
  let '(r1, s1, _) :=
    start demo_component (props_with demo_config (Some catalog_A)) "card" init_ctx in
  let '(r2, s2, _) :=
    start demo_component (props_with demo_config_no_environment (Some catalog_A)) "card" s1 in
  r1 = Ok tt /\ length (listeners s1) = 3 /\
  r2 = Throw (ConfigurationError "environment") /\
  listeners s2 = [] /\ receivers s2 (demo_component "card") Event_onSubmit = [].
Proof. vm_compute. repeat split. Qed.

(** C5: after a [start], two calls of [removeEventListeners] call
    [remove()] twice on each of the three subscriptions. *)
Lemma removeEventListeners_twice_removes_twice :
  let '(_, s1, _) :=
    start demo_component (props_with demo_config (Some catalog_A)) "card" init_ctx in
  let '(_, s2, o1) := removeEventListeners s1 in
  let '(_, _, o2) := removeEventListeners s2 in
  o1 = [Remove 0; Remove 1; Remove 2] /\ o2 = [Remove 0; Remove 1; Remove 2].
Proof. vm_compute. split; reflexivity. Qed.

(* ------------------------------------------------------------------------- *)
(** ** Witnesses *)

Lemma start_missing_field_throws_witness :
  let s1 := snd (fst (start demo_component (props_with demo_config (Some catalog_A)) "card" init_ctx)) in
  In "environment" mandatory_fields /\
  nullish (obj_get (config (props_with demo_config_no_environment (Some catalog_A))) "environment") = true /\
  let '(r, s', out) :=
    start demo_component (props_with demo_config_no_environment (Some catalog_A)) "card" s1 in
  out = map Remove (subscriptions s1) /\
  forallb is_remove out = true /\
  listeners s' = filter (untracked (subscriptions s1)) (listeners s1) /\
  subscriptions s' = subscriptions s1 /\
  (catalog_ok (props_with demo_config_no_environment (Some catalog_A)) s1 = true ->
   exists f', In f' mandatory_fields /\
     nullish (obj_get (config (props_with demo_config_no_environment (Some catalog_A))) f') = true /\
     r = Throw (ConfigurationError f')) /\
  (catalog_ok (props_with demo_config_no_environment (Some catalog_A)) s1 = false ->
   exists reason, r = Throw (PaymentMethodsError reason)).
Proof.
  cbn zeta.
  split; [cbn; left; reflexivity|]. split; [reflexivity|].
  apply (start_missing_field_throws demo_component
           (props_with demo_config_no_environment (Some catalog_A)) "card"
           (snd (fst (start demo_component (props_with demo_config (Some catalog_A)) "card" init_ctx)))
           "environment").
  - cbn; left; reflexivity.
  - reflexivity.
Defined.

Lemma start_twice_live_set_witness :
  listeners_tracked init_ctx /\
  let '(_, s1, _) := start demo_component (props_with demo_config (Some catalog_A)) "card" init_ctx in
  let '(r2, s2, out2) :=
    start demo_component (props_with demo_config (Some catalog_B)) "ideal" s1 in
  (exists rest, out2 = (map Remove (subscriptions s1) ++ rest)%list) /\
  listeners s2 = match r2 with
                 | Ok _ => attached demo_component (props_with demo_config (Some catalog_B)) "ideal" s1
                 | Throw _ => []
                 end /\
  (forall nc, length (receivers s2 nc Event_onSubmit) <= 1) /\
  (catalog_ok (props_with demo_config (Some catalog_B)) s1 = true ->
   first_missing (config (props_with demo_config (Some catalog_B))) mandatory_fields = None ->
   length (receivers s2 (demo_component "ideal") Event_onSubmit) = 1).
Proof.
  split; [intros l Hl; destruct Hl|].
  apply (start_twice_live_set demo_component
           (props_with demo_config (Some catalog_A)) "card"
           (props_with demo_config (Some catalog_B)) "ideal" init_ctx).
  intros l Hl; destruct Hl.
Defined.

Lemma find_card_alias_exact_witness :
  (exists pm, In pm (paymentMethods catalog_B) /\ pm_type pm = "scheme") /\
  (exists pm, find catalog_B "card" = Some pm /\ pm_type pm = "scheme") /\
  ("unknown_type" <> "card" /\ find catalog_B "unknown_type" = None).
Proof.
  assert (Hex : exists pm, In pm (paymentMethods catalog_B) /\ pm_type pm = "scheme").
  { exists pm_scheme. split; [cbn; right; left; reflexivity|reflexivity]. }
  split; [exact Hex|]. split.
  - exact (proj1 (find_card_alias_exact catalog_B) Hex).
  - assert (Hne : "unknown_type" <> "card") by discriminate.
    split; [exact Hne|].
    apply (proj2 (proj2 (proj2 (proj2 (find_card_alias_exact catalog_B)) "unknown_type" Hne))).
    intros pm Hin. cbn in Hin.
    destruct Hin as [<-|[<-|[]]]; cbn; discriminate.
Defined.

Lemma onError_handler_order_witness :
  obj_get [("errorCode", JStr "canceledByShopper"); ("message", JStr "Payment canceled")]
          "errorCode" = JStr "canceledByShopper" /\
  onError_handler (demo_component "card")
    [("errorCode", JStr "canceledByShopper"); ("message", JStr "Payment canceled")] =
  [Hide (demo_component "card") false;
   HostError [("errorCode", JStr "canceledByShopper"); ("message", JStr "Payment canceled")]
             (Native (demo_component "card"))].
Proof.
  split; [reflexivity|].
  apply (proj1 (onError_handler_order (demo_component "card")
                  [("errorCode", JStr "canceledByShopper"); ("message", JStr "Payment canceled")])).
  reflexivity.
Defined.

Lemma onSubmit_handler_payload_witness :
  exists payload,
    onSubmit_handler (props_with demo_config None) demo_config (demo_component "card")
      [("paymentMethod", JObj [("type", JStr "scheme")])] JNull =
    Hide (demo_component "card") false ::
      (if has_onSubmit (props_with demo_config None)
       then [HostSubmit payload (Native (demo_component "card")) JNull] else []) /\
    obj_get payload "returnUrl" =
      (if nullish (obj_get [("paymentMethod", JObj [("type", JStr "scheme")])] "returnUrl")
       then obj_get demo_config "returnUrl"
       else obj_get [("paymentMethod", JObj [("type", JStr "scheme")])] "returnUrl") /\
    (forall k, k <> "returnUrl" ->
     obj_get payload k = obj_get [("paymentMethod", JObj [("type", JStr "scheme")])] k).
Proof.
  exact (onSubmit_handler_payload (props_with demo_config None) demo_config
           (demo_component "card") [("paymentMethod", JObj [("type", JStr "scheme")])] JNull).
Defined.

Lemma removeEventListeners_twice_witness :
  subscriptions init_ctx = [] /\
  let '(r1, s1, o1) := removeEventListeners init_ctx in
  let '(r2, s2, o2) := removeEventListeners s1 in
  r1 = Ok tt /\ r2 = Ok tt /\ s2 = s1 /\
  o1 = map Remove (subscriptions init_ctx) /\ o2 = o1 /\
  (subscriptions init_ctx = [] -> s1 = init_ctx /\ o1 = []).
Proof.
  split; [reflexivity|]. exact (removeEventListeners_twice init_ctx).
Defined.

(* ------------------------------------------------------------------------- *)
(** ** Scenarios of the spec, evaluated *)

(** Scenario A: [catalog = [{type: "scheme"}]], request ["card"]. *)
Example scenario_A :
  opens (snd (start demo_component (props_with demo_config (Some catalog_A)) "card" init_ctx)) =
  [(demo_component "card", mkPaymentMethodsResponse [pm_scheme] None,
    [("environment", JStr "test"); ("clientKey", JStr "test_KEY");
     ("returnUrl", JStr "myapp://payment");
     ("dropin", JObj [("skipListWhenSinglePaymentMethod", JBool true)])])].
Proof. vm_compute. reflexivity. Qed.

(** Scenario B: [catalog = [{type: "ideal"}, {type: "scheme"}]], request
    ["unknown_type"]. *)
Example scenario_B :
  opens (snd (start demo_component (props_with demo_config (Some catalog_B)) "unknown_type" init_ctx)) =
  [(demo_component "unknown_type", catalog_B, demo_config)].
Proof. vm_compute. reflexivity. Qed.

(** Scenario C: the session promise rejects with [{code: 500}]. *)
Example scenario_C :
  snd (createSession (mkProps demo_config None (Some (JObj [("amount", JNum (NumFin false 1 4))])) true true true)
         (inr (JObj [("code", JNum (NumFin false 5 3))])) init_ctx) =
  [CreateSessionCall (JObj [("amount", JNum (NumFin false 1 4))]) demo_config;
   HostError [("message", JStr ("{" ++ json_quote "code" ++ ":500}"));
              ("errorCode", JStr "sessionError")] SessionHelper].
Proof. vm_compute. reflexivity. Qed.

Example json_stringify_code500 :
  json_stringify (JObj [("code", JNum (NumFin false 5 3))]) = Some ("{" ++ json_quote "code" ++ ":500}").
Proof. reflexivity. Qed.

(** [JSON.stringify("a\nb")] and [JSON.stringify("\u0001")]: control
    characters are escaped. *)
Example json_stringify_control :
  json_stringify (JStr ("a" ++ String "010"%char "b")) =
    Some (String quote_char ("a\nb" ++ String quote_char EmptyString)) /\
  json_stringify (JStr (String "001"%char EmptyString)) =
    Some (String quote_char ("\u0001" ++ String quote_char EmptyString)).
Proof. split; reflexivity. Qed.

(** Numbers: [1e21], [1.2345e21], [1.23], [-15], [0.000005], [5e-7], [NaN]. *)
Example json_stringify_numbers :
  map (fun x => json_stringify (JNum x))
    [NumFin false 1 22; NumFin false 12345 22; NumFin false 123 1; NumFin true 15 2;
     NumFin false 5 (-5); NumFin false 5 (-6); NumFin false 50 (-6); NumNaN] =
  [Some "1e+21"; Some "1.2345e+21"; Some "1.23"; Some "-15";
   Some "0.000005"; Some "5e-7"; Some "5e-7"; Some "null"].
Proof. reflexivity. Qed.

(** Keys: array indices first in ascending order, then the others in
    creation order; [undefined] values are left out. *)
Example json_stringify_key_order :
  json_stringify (JObj [("b", JNull); ("2", JNull); ("a", JUndef); ("1", JNull); ("01", JNull)]) =
  Some ("{" ++ json_quote "1" ++ ":null," ++ json_quote "2" ++ ":null," ++
        json_quote "b" ++ ":null," ++ json_quote "01" ++ ":null}").
Proof. reflexivity. Qed.

(* ------------------------------------------------------------------------- *)
(** ** Further properties of [AdyenCheckoutContext.tsx] *)

(** [startEventListeners] always subscribes to the submit and error events,
    then to additional details and completion only when the component
    declares them; the ref then holds only the new subscriptions, while the
    listeners already live on the emitters stay live. *)
Theorem startEventListeners_subscriptions (p : Props) (cfg : jsobj)
  (nc : NativeComponent) (s : Ctx) :
  let '(r, s', out) := startEventListeners p cfg nc s in
  r = Ok tt /\
  map l_event (new_listeners p cfg nc (next_id s)) =
    ([Event_onSubmit; Event_onError]
     ++ (if includes (events nc) Event_onAdditionalDetails then [Event_onAdditionalDetails] else [])
     ++ (if includes (events nc) Event_onComplete then [Event_onComplete] else []))%list /\
  listeners s' = (listeners s ++ new_listeners p cfg nc (next_id s))%list /\
  subscriptions s' = map l_id (new_listeners p cfg nc (next_id s)) /\
  (forall l, In l (new_listeners p cfg nc (next_id s)) ->
     l_component l = nc /\ l_config l = cfg /\ l_props l = p).
Proof.
  rewrite startEventListeners_run. cbn [listeners subscriptions].
  split; [reflexivity|]. split.
  - unfold new_listeners.
    destruct (includes (events nc) Event_onAdditionalDetails);
    destruct (includes (events nc) Event_onComplete); reflexivity.
  - split; [reflexivity|]. split; [reflexivity|].
    intros l. unfold new_listeners.
    destruct (includes (events nc) Event_onAdditionalDetails);
    destruct (includes (events nc) Event_onComplete); cbn;
    intros H; repeat (destruct H as [<-|H]; [repeat split|]); contradiction.
Qed.

Lemma deliver_new_listeners (p : Props) (nc nc0 : NativeComponent) (n : nat) (s : Ctx) (ev : NativeEvent) :
  listeners s = new_listeners p (config p) nc n ->
  deliver s nc0 ev =
  match ev with
  | EvSubmit d x => onSubmit_handler p (config p) nc d x
  | EvError e => onError_handler nc e
  | EvAdditionalDetails d =>
      if includes (events nc) Event_onAdditionalDetails
      then onAdditionalDetails_handler p nc d else []
  | EvComplete r =>
      if includes (events nc) Event_onComplete then onComplete_handler p nc r else []
  end.
Proof.
  intros Hl. unfold deliver, receivers. rewrite Hl. unfold new_listeners.
  destruct (includes (events nc) Event_onAdditionalDetails);
  destruct (includes (events nc) Event_onComplete);
  destruct ev; cbn; rewrite ?app_nil_r; reflexivity.
Qed.

(** After a successful [start], each event reaches its handler exactly
    once, with the configuration and the callbacks of that [start] and bound
    to the opened component: submit and error always, additional details and
    completion only when the opened component declares them.  The
    subscriptions are keyed by event name only, so this holds whichever
    native module emits the event. *)
Theorem start_then_events (component_for : string -> NativeComponent)
  (p : Props) (typeName : string) (s : Ctx) (pms : PaymentMethodsResponse)
  (emitter : NativeComponent) :
  listeners_tracked s ->
  effective_paymentMethods p s = Some pms ->
  paymentMethods pms <> [] ->
  first_missing (config p) mandatory_fields = None ->
  let '(_, s', _) := start component_for p typeName s in
  let nc := component_for typeName in
  (forall d x, deliver s' emitter (EvSubmit d x) = onSubmit_handler p (config p) nc d x) /\
  (forall e, deliver s' emitter (EvError e) = onError_handler nc e) /\
  (forall d, deliver s' emitter (EvAdditionalDetails d) =
             if includes (events nc) Event_onAdditionalDetails
             then onAdditionalDetails_handler p nc d else []) /\
  (forall r, deliver s' emitter (EvComplete r) =
             if includes (events nc) Event_onComplete then onComplete_handler p nc r else []).
Proof.
  intros Ht He Hne Hm.
  rewrite (start_run_ok component_for p typeName s pms He Hne Hm).
  cbn zeta.
  assert (Hl : listeners (mkCtx (map l_id (attached component_for p typeName s))
                 (listeners (after_remove s) ++ attached component_for p typeName s)
                 (next_id s + length (attached component_for p typeName s))
                 (sessionStorage s)) =
               new_listeners p (config p) (component_for typeName) (next_id s)).
  { cbn [listeners]. unfold after_remove. destruct s; cbn.
    rewrite filter_untracked_all; [reflexivity|exact Ht]. }
  split; [intros d x; apply (deliver_new_listeners _ _ _ _ _ (EvSubmit d x) Hl)|].
  split; [intros e; apply (deliver_new_listeners _ _ _ _ _ (EvError e) Hl)|].
  split; [intros d; apply (deliver_new_listeners _ _ _ _ _ (EvAdditionalDetails d) Hl)|].
  intros r; apply (deliver_new_listeners _ _ _ _ _ (EvComplete r) Hl).
Qed.

(** Unmounting (the cleanup of the mount effect) from a context whose live
    listeners are all in the ref calls [remove()] on every subscription of
    the ref and leaves no live listener, so no later native event reaches a
    handler. *)
Theorem unmount_releases_all (s : Ctx) :
  listeners_tracked s ->
  let '(r, s', out) := unmount s in
  r = Ok tt /\ out = map Remove (subscriptions s) /\ listeners s' = [] /\
  (forall nc ev, deliver s' nc ev = []).
Proof.
  intros Ht. unfold unmount. rewrite removeEventListeners_run.
  assert (H0 : filter (untracked (subscriptions s)) (listeners s) = [])
    by (apply filter_untracked_all; exact Ht).
  rewrite H0. destruct s; cbn.
  split; [reflexivity|]. split; [reflexivity|]. split; [reflexivity|].
  intros nc ev. reflexivity.
Qed.

(** When the session promise resolves with [r], [createSession] stores it
    and calls no host callback; from then on the context value exposes the
    [paymentMethods] prop when it is given and the session's catalog
    otherwise, and that is the catalog the next [start] resolves against.
    The subscriptions are not touched. *)
Theorem createSession_success (p : Props) (r : SessionResponse) (s : Ctx) :
  let '(res, s', out) := createSession p (inl r) s in
  res = Ok tt /\
  out = [CreateSessionCall (match session p with Some d => d | None => JUndef end) (config p);
         SetSession r] /\
  sessionStorage s' = Some r /\
  listeners s' = listeners s /\ subscriptions s' = subscriptions s /\
  value_paymentMethods (provider_value p s') =
    match props_paymentMethods p with
    | Some pms => Some pms
    | None => session_paymentMethods r
    end /\
  effective_paymentMethods p s' = value_paymentMethods (provider_value p s').
Proof.
  destruct s; cbn. repeat split.
Qed.

Definition host_inv (s : Ctx) : Prop :=
  listeners_tracked s /\
  (listeners s = [] \/ exists p cfg nc n, listeners s = new_listeners p cfg nc n).

Lemma submit_listeners_new (p : Props) (cfg : jsobj) (nc : NativeComponent) (n : nat) :
  length (filter (fun l => String.eqb (l_event l) Event_onSubmit) (new_listeners p cfg nc n)) = 1.
Proof.
  unfold new_listeners.
  destruct (includes (events nc) Event_onAdditionalDetails);
  destruct (includes (events nc) Event_onComplete); reflexivity.
Qed.

Lemma host_step_inv (component_for : string -> NativeComponent) (st : HostStep) (s : Ctx) :
  host_inv s -> host_inv (fst (host_step component_for st s)).
Proof.
  intros [Ht Hl]. destruct st as [p t|p outcome|nc ev|]; cbn [host_step].
  - pose proof (start_tracked component_for p t s Ht) as H.
    destruct (start component_for p t s) as [[r s'] out].
    destruct H as (_ & Hl' & _ & _ & Ht'). cbn [fst]. split; [exact Ht'|].
    destruct r; [right; eexists _, _, _, _; exact Hl'|left; exact Hl'].
  - unfold session_effect. destruct (session p); [|split; assumption].
    destruct outcome as [r|e]; destruct s; cbn; split; assumption.
  - split; assumption.
  - pose proof (unmount_releases_all s Ht) as H.
    destruct (unmount s) as [[r s'] out]. destruct H as (_ & _ & Hl' & _).
    cbn [fst]. split; [intros l; rewrite Hl'; contradiction|left; exact Hl'].
Qed.

Lemma run_host_inv (component_for : string -> NativeComponent) (steps : list HostStep) (s : Ctx) :
  host_inv s -> host_inv (fst (run_host component_for steps s)).
Proof.
  revert s; induction steps as [|st steps IH]; intros s H; cbn; [exact H|].
  pose proof (host_step_inv component_for st s H) as H1.
  destruct (host_step component_for st s) as [s1 o1]. cbn in H1.
  specialize (IH s1 H1).
  destruct (run_host component_for steps s1) as [s2 o2]. exact IH.
Qed.

(** Over any sequence of host actions on a freshly mounted [AdyenCheckout]
    ([start] calls that succeed or throw, settled sessions, native events,
    unmount), every live listener stays in the [subscriptions] ref, and at
    most one submit listener is live at any time. *)
Theorem run_host_single_submit_listener (component_for : string -> NativeComponent)
  (steps : list HostStep) :
  let '(s, _) := run_host component_for steps init_ctx in
  listeners_tracked s /\ length (submit_listeners s) <= 1.
Proof.
  assert (H0 : host_inv init_ctx) by (split; [intros l []|left; reflexivity]).
  pose proof (run_host_inv component_for steps init_ctx H0) as [Ht Hl].
  destruct (run_host component_for steps init_ctx) as [s out]. cbn [fst] in *.
  split; [exact Ht|]. unfold submit_listeners.
  destruct Hl as [Hl | (p & cfg & nc & n & Hl)]; rewrite Hl; [cbn; lia|].
  rewrite submit_listeners_new. lia.
Qed.

(** [find] returns the first record of the catalog whose type matches the
    (mapped) type name. *)
Theorem find_first_match (pre post : list PaymentMethod) (pm : PaymentMethod)
  (stored : option (list jsval)) (typeName : string) :
  (forall x, In x pre -> pm_type x <> mapCreatedComponentType typeName) ->
  pm_type pm = mapCreatedComponentType typeName ->
  find (mkPaymentMethodsResponse (pre ++ pm :: post) stored) typeName = Some pm.
Proof.
  intros Hpre Hpm. unfold find. cbn [paymentMethods].
  induction pre as [|x pre IH]; cbn.
  - rewrite Hpm, String.eqb_refl. reflexivity.
  - destruct (String.eqb_spec (pm_type x) (mapCreatedComponentType typeName)) as [Hx|_].
    + exfalso. exact (Hpre x (or_introl eq_refl) Hx).
    + apply IH. intros y Hy. apply Hpre. right; exact Hy.
Qed.

(** The two type-name tables have no duplicates, and no type name is both
    a native component and an unsupported payment method. *)
Theorem payment_method_tables_disjoint :
  nodup_b UNSUPPORTED_PAYMENT_METHODS = true /\
  nodup_b NATIVE_COMPONENTS = true /\
  forallb (fun x => negb (includes UNSUPPORTED_PAYMENT_METHODS x)) NATIVE_COMPONENTS = true.
Proof. vm_compute. repeat split. Qed.

(* ------------------------------------------------------------------------- *)
(** ** Further properties of [InstantFragment] *)

(** [setupInstantComponent] records the component before it reads the
    binding: with a view it attaches the component, without one it throws
    but the component is recorded anyway.  Afterwards redelivered intents
    and additional actions go to that component; after [onDestroyView] they
    are dropped.  A payment result always shows the toast, then dismisses. *)
Theorem instant_component_routing (f : InstantFragment.Fragment) (c : nat)
  (intent : string) (action : jsval) (result : string) :
  let '(res, f1, out) := InstantFragment.setupInstantComponent c f in
  InstantFragment.instantPaymentComponent f1 = Some c /\
  res = match InstantFragment.fragment_binding f with
        | Some _ => inl tt
        | None => inr InstantFragment.BindingIsNull
        end /\
  out = match InstantFragment.fragment_binding f with
        | Some _ => [InstantFragment.Attach c]
        | None => []
        end /\
  InstantFragment.onNewIntent intent f1 = [InstantFragment.HandleIntent c intent] /\
  InstantFragment.onEvent (InstantFragment.AdditionalAction action) f1 =
    [InstantFragment.HandleAction c action] /\
  InstantFragment.onNewIntent intent (InstantFragment.onDestroyView f1) = [] /\
  InstantFragment.onEvent (InstantFragment.AdditionalAction action)
    (InstantFragment.onDestroyView f1) = [] /\
  InstantFragment.onEvent (InstantFragment.PaymentResult result) f1 =
    [InstantFragment.ToastShow result; InstantFragment.Dismiss].
Proof.
  unfold InstantFragment.setupInstantComponent.
  destruct (InstantFragment.fragment_binding f); cbn; repeat split.
Qed.

(** The fragment's [onViewState] needs a view: with one it applies the
    view state so that exactly the matching widget is visible; with none,
    in particular after [onDestroyView], it throws ([requireNotNull]) and
    changes nothing. *)
Theorem instant_onViewState_view (vs : InstantViewState) (f : InstantFragment.Fragment) :
  InstantFragment.onViewState vs (InstantFragment.onDestroyView f) =
    (inr InstantFragment.BindingIsNull, InstantFragment.onDestroyView f) /\
  (InstantFragment.fragment_binding f = None ->
   InstantFragment.onViewState vs f = (inr InstantFragment.BindingIsNull, f)) /\
  (forall b, InstantFragment.fragment_binding f = Some b ->
   exists b',
     InstantFragment.onViewState vs f =
       (inl tt, InstantFragment.mkFragment (InstantFragment.arguments f) (Some b')
                  (InstantFragment.instantPaymentComponent f)) /\
     exactly_one (errorView_isVisible b') (progressIndicator_isVisible b')
                 (componentContainer_isVisible b') = true /\
     view_matches vs b').
Proof.
  split; [reflexivity|]. split.
  - intros H. unfold InstantFragment.onViewState. rewrite H. reflexivity.
  - intros b H. unfold InstantFragment.onViewState. rewrite H.
    exists (onViewState vs b). split; [reflexivity|].
    destruct vs; cbn; repeat split.
Qed.

(** [onCreateView] sets [RETURN_URL_EXTRA] to the application's return URL
    followed by ["/instant"], keeps every other argument (so the payment
    method type given to [show] survives), installs the new binding and
    keeps the component. *)
Theorem instant_onCreateView_arguments (applicationReturnUrl : string) (b : Binding)
  (f : InstantFragment.Fragment) (paymentMethodType : string) :
  let f' := InstantFragment.onCreateView applicationReturnUrl b f in
  (forall k,
     obj_get (match InstantFragment.arguments f' with Some a => a | None => [] end) k =
     if String.eqb k InstantFragment.RETURN_URL_EXTRA
     then JStr (applicationReturnUrl ++ "/instant")
     else obj_get (match InstantFragment.arguments f with Some a => a | None => [] end) k) /\
  InstantFragment.fragment_binding f' = Some b /\
  InstantFragment.instantPaymentComponent f' = InstantFragment.instantPaymentComponent f /\
  (let g := InstantFragment.onCreateView applicationReturnUrl b
              (InstantFragment.show_fragment paymentMethodType) in
   obj_get (match InstantFragment.arguments g with Some a => a | None => [] end)
           InstantFragment.PAYMENT_METHOD_TYPE_EXTRA = JStr paymentMethodType).
Proof.
  cbn zeta. split; [|split; [reflexivity|split; [reflexivity|]]].
  - intros k. unfold InstantFragment.onCreateView, InstantFragment.putString.
    cbn [InstantFragment.arguments]. rewrite obj_get_spread_set. reflexivity.
  - unfold InstantFragment.onCreateView, InstantFragment.putString.
    cbn [InstantFragment.arguments InstantFragment.show_fragment].
    rewrite obj_get_spread_set. reflexivity.
Qed.

Lemma findFragmentByTag_none (fm : InstantFragment.FragmentManager) (tag : string) :
  (forall id, ~ In (tag, id) fm) -> InstantFragment.findFragmentByTag fm tag = None.
Proof.
  induction fm as [|[t id] fm IH]; intros H; cbn; [reflexivity|].
  destruct (String.eqb_spec t tag) as [->|_].
  - exfalso. exact (H id (or_introl eq_refl)).
  - apply IH. intros id' Hin. exact (H id' (or_intror Hin)).
Qed.

Lemma findFragmentByTag_some (fm : InstantFragment.FragmentManager) (tag : string) (id : nat) :
  InstantFragment.findFragmentByTag fm tag = Some id -> In (tag, id) fm.
Proof.
  induction fm as [|[t i] fm IH]; cbn; [discriminate|].
  destruct (String.eqb_spec t tag) as [->|_].
  - intros H. injection H as ->. left; reflexivity.
  - intros H. right. exact (IH H).
Qed.

(** [handle] and [hide] fail when no fragment is registered under [TAG]
    (the cast of [null]); when one is, both act on a fragment registered
    under [TAG]: [handle] forwards the action to its view model and [hide]
    dismisses it. *)
Theorem instant_handle_hide_lookup (fm : InstantFragment.FragmentManager) (action : jsval) :
  ((forall id, ~ In (InstantFragment.TAG, id) fm) ->
   InstantFragment.handle fm action = inr InstantFragment.NoFragmentUnderTag /\
   InstantFragment.hide fm = inr InstantFragment.NoFragmentUnderTag) /\
  ((exists id, In (InstantFragment.TAG, id) fm) ->
   exists id, In (InstantFragment.TAG, id) fm /\
     InstantFragment.handle fm action = inl [InstantFragment.ViewModelHandle id action] /\
     InstantFragment.hide fm = inl [InstantFragment.DismissFragment id]).
Proof.
  unfold InstantFragment.handle, InstantFragment.hide. split.
  - intros H. rewrite (findFragmentByTag_none fm _ H). split; reflexivity.
  - intros [id Hin].
    destruct (InstantFragment.findFragmentByTag fm InstantFragment.TAG) as [id'|] eqn:Hf.
    + exists id'. split; [apply findFragmentByTag_some; exact Hf|split; reflexivity].
    + exfalso. revert Hf. clear -Hin. induction fm as [|[t i] fm IH]; [contradiction|].
      cbn. destruct Hin as [Heq|Hin].
      * injection Heq as -> ->. rewrite String.eqb_refl. discriminate.
      * destruct (String.eqb t InstantFragment.TAG); [discriminate|]. exact (IH Hin).
Qed.

(* ------------------------------------------------------------------------- *)
(** ** Witnesses of the further properties *)

Lemma start_then_events_witness :
  listeners_tracked init_ctx /\
  effective_paymentMethods (props_with demo_config (Some catalog_A)) init_ctx = Some catalog_A /\
  paymentMethods catalog_A <> [] /\
  first_missing (config (props_with demo_config (Some catalog_A))) mandatory_fields = None /\
  let '(_, s', _) := start demo_component (props_with demo_config (Some catalog_A)) "card" init_ctx in
  let nc := demo_component "card" in
  let emitter := demo_component "ideal" in
  (forall d x, deliver s' emitter (EvSubmit d x) =
               onSubmit_handler (props_with demo_config (Some catalog_A)) demo_config nc d x) /\
  (forall e, deliver s' emitter (EvError e) = onError_handler nc e) /\
  (forall d, deliver s' emitter (EvAdditionalDetails d) =
             if includes (events nc) Event_onAdditionalDetails
             then onAdditionalDetails_handler (props_with demo_config (Some catalog_A)) nc d
             else []) /\
  (forall r, deliver s' emitter (EvComplete r) =
             if includes (events nc) Event_onComplete
             then onComplete_handler (props_with demo_config (Some catalog_A)) nc r else []).
Proof.
  split; [intros l Hl; destruct Hl|].
  split; [reflexivity|]. split; [discriminate|]. split; [reflexivity|].
  apply (start_then_events demo_component (props_with demo_config (Some catalog_A)) "card"
           init_ctx catalog_A (demo_component "ideal")).
  - intros l Hl; destruct Hl.
  - reflexivity.
  - discriminate.
  - reflexivity.
Defined.

Lemma unmount_releases_all_witness :
  let s1 := snd (fst (start demo_component (props_with demo_config (Some catalog_A)) "card" init_ctx)) in
  listeners_tracked s1 /\
  let '(r, s', out) := unmount s1 in
  r = Ok tt /\ out = map Remove (subscriptions s1) /\ listeners s' = [] /\
  (forall nc ev, deliver s' nc ev = []).
Proof.
  cbn zeta.
  assert (Ht : listeners_tracked
                 (snd (fst (start demo_component (props_with demo_config (Some catalog_A))
                                  "card" init_ctx)))).
  { intros l Hl. vm_compute in Hl. vm_compute.
    destruct Hl as [<-|[<-|[<-|[]]]]; cbn; auto. }
  split; [exact Ht|]. apply unmount_releases_all. exact Ht.
Defined.

Lemma find_first_match_witness :
  (forall x, In x [pm_ideal] -> pm_type x <> mapCreatedComponentType "card") /\
  pm_type pm_scheme = mapCreatedComponentType "card" /\
  find (mkPaymentMethodsResponse ([pm_ideal] ++ pm_scheme :: [pm_scheme]) None) "card" = Some pm_scheme.
Proof.
  assert (Hpre : forall x, In x [pm_ideal] -> pm_type x <> mapCreatedComponentType "card").
  { intros x [<-|[]]. vm_compute. discriminate. }
  split; [exact Hpre|]. split; [reflexivity|].
  apply find_first_match; [exact Hpre|reflexivity].
Defined.
